(** * The EventBridge provider (v2): event-bus registry, buses and rules

    A shallow embedding of [localstack/services/events/provider_v2.py].

    Python objects of class [EventBus] are mutable and are reached through
    references, so the embedding keeps an object store next to the
    provider's dictionary: the dictionary [_event_buses] maps a key to a
    reference, and the store maps a reference to the object's fields.
    Handlers are functions from a world to a world and an outcome, the
    outcome being a returned value or a raised exception. *)

From Stdlib Require Import Ascii String List Bool Arith Lia.
From stdpp Require Import base option list strings gmap fin_maps.

Local Open Scope string_scope.

(** ** Exceptions and outcomes *)

(** The exception classes the module can raise or declares.
    [InternalException] and [ResourceNotFoundException] are imported from the
    generated API, [ValidationException] is declared at the end of the module
    (with code "ValidationException", [sender_fault = True] and status 400),
    [KeyError] and [IndexError] are the built-in ones raised by [dict.pop] and
    by list indexing. Each carries the positional arguments it was built
    with. *)
Inductive Exception : Type :=
| InternalException (args : list string)
| ResourceNotFoundException (args : list string)
| ValidationException (args : list string)
| KeyError (key : string)
| IndexError.

(** The class of an exception, which is what a caller dispatches on. *)
Inductive ExceptionClass : Type :=
| cls_InternalException
| cls_ResourceNotFoundException
| cls_ValidationException
| cls_KeyError
| cls_IndexError.

Definition class_of (e : Exception) : ExceptionClass :=
  match e with
  | InternalException _ => cls_InternalException
  | ResourceNotFoundException _ => cls_ResourceNotFoundException
  | ValidationException _ => cls_ValidationException
  | KeyError _ => cls_KeyError
  | IndexError => cls_IndexError
  end.

Inductive outcome (A : Type) : Type :=
| Return (a : A)
| Raise (e : Exception).

Arguments Return {A} a.
Arguments Raise {A} e.

(** ** Rules *)

(** Modelled from the spec: the enumeration [RuleState] is imported from the
    generated API ([localstack.aws.api.events]); the spec gives it the two
    values ENABLED and DISABLED. *)
Inductive RuleState : Type := ENABLED | DISABLED.

Module Rule.

Record t : Type := mk {
  name : string;
  state : RuleState;
  description : option string;
  role_arn : option string
}.

(** [Rule.__init__(name, state=RuleState.ENABLED, description=None,
    role_arn=None)]. An omitted [state] is [None] here; [description] and
    [role_arn] default to Python's [None], which is what their [None]
    stands for. *)
Definition __init__ (name : string) (state : option RuleState)
    (description role_arn : option string) : t :=
  {| name := name;
     state := default ENABLED state;
     description := description;
     role_arn := role_arn |}.

Definition enable (self : t) : t :=
  {| name := name self; state := ENABLED;
     description := description self; role_arn := role_arn self |}.

Definition disable (self : t) : t :=
  {| name := name self; state := DISABLED;
     description := description self; role_arn := role_arn self |}.

End Rule.

(** ** Event buses *)

Module EventBus.

Record t : Type := mk {
  name : string;
  arn : string;
  _rules : gmap string Rule.t
}.

Definition __init__ (name arn : string) : t :=
  {| name := name; arn := arn; _rules := ∅ |}.

(** [self._rules.clear()] *)
Definition delete (self : t) : t :=
  {| name := name self; arn := arn self; _rules := ∅ |}.

(** The class defines neither [__bool__] nor [__len__]: every instance is
    true in a condition. *)
Definition truthy (self : t) : bool := true.

End EventBus.

(** ** The world: object store and provider *)

(** References into the object store. *)
Abbreviation ref := nat (only parsing).

(** [objects] is the store of [EventBus] instances, a new instance taking
    the next free reference; [_event_buses] is the provider's dictionary.
    The provider's other attribute, [_events_workers], is set to an empty
    dictionary by the constructor and never read or written again; it is left
    out. *)
Record World : Type := mkWorld {
  objects : list EventBus.t;
  _event_buses : gmap string ref
}.

Record RequestContext : Type := mkContext {
  region : string;
  account_id : string
}.

Record CreateEventBusResponse : Type := mkCreateEventBusResponse {
  EventBusArn : string
}.

(** Allocation of a new instance. *)
Definition new_EventBus (name arn : string) (objs : list EventBus.t)
  : ref * list EventBus.t :=
  (List.length objs, (objs ++ [EventBus.__init__ name arn])%list).

(** [d.pop(key)] without a default: the value and the dictionary without the
    key, or [KeyError]. *)
Definition dict_pop {V : Type} (key : string) (d : gmap string V)
  : outcome (V * gmap string V) :=
  match d !! key with
  | Some v => Return (v, delete key d)
  | None => Raise (KeyError key)
  end.

(** A condition on a reference tests the instance behind it. *)
Definition ref_truthy (objs : list EventBus.t) (r : ref) : bool :=
  match objs !! r with
  | Some b => EventBus.truthy b
  | None => true
  end.

(** [f"{name}-{region}"] *)
Definition _get_event_bus_key (name region : string) : string :=
  name +:+ "-" +:+ region.

(** [f"arn:aws:events:{region}:{account_id}:event-bus/{name}"] *)
Definition _get_event_bus_arn (name region account_id : string) : string :=
  "arn:aws:events:" +:+ region +:+ ":" +:+ account_id +:+ ":event-bus/" +:+ name.

Definition not_found_message (name region : string) : string :=
  "EventBus " +:+ name +:+ " for region " +:+ region +:+ " does not exist".

Definition _add_default_event_bus (w : World) : World :=
  let name := "default" in
  let default_account_id := "000000000000" in
  let default_region := "us-east-1" in
  let arn := _get_event_bus_arn name default_region default_account_id in
  let '(r, objs) := new_EventBus name arn (objects w) in
  {| objects := objs; _event_buses := <["default" := r]> (_event_buses w) |}.

(** [EventsProvider.__init__], run in a world with the given objects. *)
Definition __init__ (objs : list EventBus.t) : World :=
  _add_default_event_bus {| objects := objs; _event_buses := ∅ |}.

(** The handler of CreateEventBus. Its parameters [event_source_name] and
    [tags] are not used by the body and are left out. *)
Definition create_event_bus (context : RequestContext) (name : string)
    (w : World) : World * outcome CreateEventBusResponse :=
  let event_bus_arn :=
    _get_event_bus_arn name (region context) (account_id context) in
  let '(event_bus, objs) := new_EventBus name event_bus_arn (objects w) in
  let event_bus_key := _get_event_bus_key name (region context) in
  ({| objects := objs;
      _event_buses := <[event_bus_key := event_bus]> (_event_buses w) |},
   Return {| EventBusArn := event_bus_arn |}).

(** The handler of DeleteEventBus. The world returned with a raised
    exception is the world at the point of the [raise]. *)
Definition delete_event_bus (context : RequestContext) (name : string)
    (w : World) : World * outcome unit :=
  if String.eqb name "default" then
    (w, Raise (InternalException
                 ["ValidationException"; "Cannot delete event bus default."]))
  else
    let event_bus_key := _get_event_bus_key name (region context) in
    match dict_pop event_bus_key (_event_buses w) with
    | Raise e => (w, Raise e)
    | Return (event_bus, buses) =>
        if ref_truthy (objects w) event_bus then
          ({| objects := alter EventBus.delete event_bus (objects w);
              _event_buses := buses |},
           Return tt)
        else
          ({| objects := objects w; _event_buses := buses |},
           Raise (ResourceNotFoundException
                    [not_found_message name (region context)]))
    end.

Definition _get_event_bus (name region : string) (w : World) : outcome ref :=
  let event_bus_key := _get_event_bus_key name region in
  match _event_buses w !! event_bus_key with
  | None => Raise (ResourceNotFoundException [not_found_message name region])
  | Some r => Return r
  end.

(** [s.split(sep)] for a separator of one character, the only use in the
    module being [split("/")]: the pieces between the occurrences of the
    separator, in order; never the empty list. *)
Fixpoint split (sep : ascii) (s : string) : list string :=
  match s with
  | EmptyString => [EmptyString]
  | String c s' =>
      if Ascii.eqb c sep then EmptyString :: split sep s'
      else match split sep s' with
           | [] => [String c EmptyString]
           | w :: ws => String c w :: ws
           end
  end.

(** [l[-1]]: the last element, or [IndexError] on the empty list. *)
Definition index_minus_1 {A : Type} (l : list A) : outcome A :=
  match last l with
  | Some x => Return x
  | None => Raise IndexError
  end.

(** [not s] for [s : str | None]: true of [None] and of the empty string. *)
Definition str_falsy (s : option string) : bool :=
  match s with
  | None => true
  | Some EmptyString => true
  | Some (String _ _) => false
  end.

(** The second [None] branch is not reachable: [None] is falsy. *)
Definition _extract_event_bus_name (event_bus_name_or_arn : option string)
  : outcome string :=
  if str_falsy event_bus_name_or_arn then Return "default"
  else
    match event_bus_name_or_arn with
    | Some s => index_minus_1 (split "/" s)
    | None => Return "default"
    end.

(** ** Sequences of requests *)

Inductive Request : Type :=
| CreateEventBus (context : RequestContext) (name : string)
| DeleteEventBus (context : RequestContext) (name : string).

(** The world a request leaves behind, whether it returned or raised. *)
Definition handle (w : World) (rq : Request) : World :=
  match rq with
  | CreateEventBus context name => fst (create_event_bus context name w)
  | DeleteEventBus context name => fst (delete_event_bus context name w)
  end.

Definition run (rqs : list Request) (w : World) : World :=
  foldl handle w rqs.

(** One [CreateEventBus] per element, in order. *)
Definition create_event_buses (reqs : list (RequestContext * string))
    (w : World) : World :=
  foldl (fun w rq => fst (create_event_bus (fst rq) (snd rq) w)) w reqs.

(** ** Predicates used in the statements *)

(** Every reference held by the provider's dictionary is to an allocated
    instance. *)
Definition wf (w : World) : Prop :=
  forall key r, _event_buses w !! key = Some r -> is_Some (objects w !! r).

(** Does the character occur in the string? *)
Fixpoint occurs (c : ascii) (s : string) : bool :=
  match s with
  | EmptyString => false
  | String c' s' => Ascii.eqb c' c || occurs c s'
  end.

(** After the batch of creations every requested bus is found under its own
    name and region, and is the instance built for that request. *)
Definition all_lookupable (reqs : list (RequestContext * string))
    (w : World) : Prop :=
  forall context name, (context, name) ∈ reqs ->
    exists r,
      _get_event_bus name (region context) (create_event_buses reqs w) = Return r
      /\ objects (create_event_buses reqs w) !! r
         = Some (EventBus.__init__ name
                   (_get_event_bus_arn name (region context) (account_id context))).

Definition key_of (rq : RequestContext * string) : string :=
  _get_event_bus_key (snd rq) (region (fst rq)).

Definition pair_of (rq : RequestContext * string) : string * string :=
  (snd rq, region (fst rq)).

(** A world in which the bus "orders" of "us-east-1" owns a rule. *)
Definition world_with_rule : World :=
  {| objects :=
       [ {| EventBus.name := "orders";
            EventBus.arn := "arn:aws:events:us-east-1:000000000000:event-bus/orders";
            EventBus._rules :=
              {[ "nightly" := Rule.__init__ "nightly" None None None ]} |} ];
     _event_buses := {[ "orders-us-east-1" := 0 ]} |}.

(** ** Sequences of calls on a rule *)

Inductive RuleCall : Type :=
| call_enable
| call_disable.

Definition call (self : Rule.t) (c : RuleCall) : Rule.t :=
  match c with
  | call_enable => Rule.enable self
  | call_disable => Rule.disable self
  end.

Definition calls (cs : list RuleCall) (self : Rule.t) : Rule.t :=
  foldl call self cs.

(** ** Predicates on worlds *)

(** No two keys of the dictionary hold the same reference. *)
Definition no_alias (w : World) : Prop :=
  forall key1 key2 r,
    _event_buses w !! key1 = Some r ->
    _event_buses w !! key2 = Some r ->
    key1 = key2.

(** The instance is as the provider builds it for the key: the seeded
    default bus for the key "default", and otherwise a bus without rules whose
    name and region compose the key and whose ARN is composed of the same name
    and region and of some account. *)
Definition built_for (key : string) (bus : EventBus.t) : Prop :=
  (key = "default"
   /\ bus = EventBus.__init__ "default"
              "arn:aws:events:us-east-1:000000000000:event-bus/default")
  \/ (exists context,
        key = _get_event_bus_key (EventBus.name bus) (region context)
        /\ bus = EventBus.__init__ (EventBus.name bus)
                   (_get_event_bus_arn (EventBus.name bus)
                      (region context) (account_id context))).

(** The seeded bus sits at reference [d] under the bare key "default", with
    the fields the constructor gave it, and every other key holds a later
    reference. *)
Definition seeded_at (d : nat) (w : World) : Prop :=
  _event_buses w !! "default" = Some d
  /\ objects w !! d
     = Some (EventBus.__init__ "default"
               "arn:aws:events:us-east-1:000000000000:event-bus/default")
  /\ (forall key r,
        _event_buses w !! key = Some r -> key <> "default" -> d < r).

(** Every registered instance is as the provider builds it for its key. *)
Definition all_built (w : World) : Prop :=
  forall key r,
    _event_buses w !! key = Some r ->
    exists bus, objects w !! r = Some bus /\ built_for key bus.

(** A world with two registered buses that own rules. *)
Definition world_with_two_buses : World :=
  {| objects :=
       [ {| EventBus.name := "orders";
            EventBus.arn := "arn:aws:events:us-east-1:000000000000:event-bus/orders";
            EventBus._rules :=
              {[ "nightly" := Rule.__init__ "nightly" None None None ]} |};
         {| EventBus.name := "billing";
            EventBus.arn := "arn:aws:events:us-east-1:000000000000:event-bus/billing";
            EventBus._rules :=
              {[ "monthly" := Rule.__init__ "monthly" (Some DISABLED) None None ]} |} ];
     _event_buses := {[ "orders-us-east-1" := 0; "billing-us-east-1" := 1 ]} |}.

(** * Properties *)

(** ** Rules *)

Section RuleFacts.

Variable rule : Rule.t.

Lemma enable_state : Rule.state (Rule.enable rule) = ENABLED.
Proof. reflexivity. Qed.

Lemma disable_state : Rule.state (Rule.disable rule) = DISABLED.
Proof. reflexivity. Qed.

Lemma enable_frame :
  Rule.name (Rule.enable rule) = Rule.name rule
  /\ Rule.description (Rule.enable rule) = Rule.description rule
  /\ Rule.role_arn (Rule.enable rule) = Rule.role_arn rule.
Proof. repeat split. Qed.

Lemma disable_frame :
  Rule.name (Rule.disable rule) = Rule.name rule
  /\ Rule.description (Rule.disable rule) = Rule.description rule
  /\ Rule.role_arn (Rule.disable rule) = Rule.role_arn rule.
Proof. repeat split. Qed.

End RuleFacts.

(** C9. A rule built without a state argument is ENABLED; enabling twice, or
    disabling and then enabling, leaves the rule ENABLED; and [enable] and
    [disable] keep the name, the description and the role ARN. *)
Theorem rule_enable_disable :
  (forall name description role_arn,
     Rule.state (Rule.__init__ name None description role_arn) = ENABLED)
  /\ (forall rule, Rule.state (Rule.enable (Rule.enable rule)) = ENABLED)
  /\ (forall rule, Rule.state (Rule.enable (Rule.disable rule)) = ENABLED)
  /\ (forall rule,
        Rule.enable rule
        = Rule.mk (Rule.name rule) ENABLED
            (Rule.description rule) (Rule.role_arn rule))
  /\ (forall rule,
        Rule.disable rule
        = Rule.mk (Rule.name rule) DISABLED
            (Rule.description rule) (Rule.role_arn rule)).
Proof.
  split; [|split; [|split; [|split]]].
  - intros name description role_arn. reflexivity.
  - intros rule. rewrite enable_state. reflexivity.
  - intros rule. apply enable_state.
  - intros rule. reflexivity.
  - intros rule. reflexivity.
Qed.

(** ** Keys and ARNs *)

Lemma key_region_inj name region1 region2 :
  _get_event_bus_key name region1 = _get_event_bus_key name region2 ->
  region1 = region2.
Proof.
  unfold _get_event_bus_key. intros Heq.
  apply (inj (String.append name)) in Heq.
  apply (inj (String.append "-")) in Heq.
  exact Heq.
Qed.

Lemma key_region_ne name region1 region2 :
  region1 <> region2 ->
  _get_event_bus_key name region1 <> _get_event_bus_key name region2.
Proof. intros Hne Heq. apply Hne. eapply key_region_inj, Heq. Qed.

(** ** What one handler does to the world *)

Section Handlers.

Variable context : RequestContext.
Variable name : string.
Variable w : World.

Local Abbreviation key := (_get_event_bus_key name (region context)).
Local Abbreviation arn :=
  (_get_event_bus_arn name (region context) (account_id context)).

Lemma create_objects :
  objects (fst (create_event_bus context name w))
  = (objects w ++ [EventBus.__init__ name arn])%list.
Proof. reflexivity. Qed.

Lemma create_buses :
  _event_buses (fst (create_event_bus context name w))
  = <[key := List.length (objects w)]> (_event_buses w).
Proof. reflexivity. Qed.

Lemma create_returns :
  snd (create_event_bus context name w) = Return {| EventBusArn := arn |}.
Proof. reflexivity. Qed.

Lemma create_lookup_same :
  _event_buses (fst (create_event_bus context name w)) !! key
  = Some (List.length (objects w)).
Proof. rewrite create_buses. apply lookup_insert_eq. Qed.

Lemma create_lookup_other key' :
  key' <> key ->
  _event_buses (fst (create_event_bus context name w)) !! key'
  = _event_buses w !! key'.
Proof. intros Hne. rewrite create_buses. apply lookup_insert_ne. congruence. Qed.

Lemma create_new_object :
  objects (fst (create_event_bus context name w)) !! List.length (objects w)
  = Some (EventBus.__init__ name arn).
Proof.
  rewrite create_objects, lookup_app_r by lia.
  rewrite Nat.sub_diag. reflexivity.
Qed.

Lemma create_old_objects r b :
  objects w !! r = Some b ->
  objects (fst (create_event_bus context name w)) !! r = Some b.
Proof. intros Hr. rewrite create_objects. apply lookup_app_l_Some, Hr. Qed.

Lemma create_keeps_keys key' :
  is_Some (_event_buses w !! key') ->
  is_Some (_event_buses (fst (create_event_bus context name w)) !! key').
Proof.
  intros Hsome. rewrite create_buses.
  destruct (decide (key = key')) as [->|Hne].
  - rewrite lookup_insert_eq. eauto.
  - rewrite lookup_insert_ne by exact Hne. exact Hsome.
Qed.

Lemma delete_default :
  name = "default" ->
  delete_event_bus context name w
  = (w, Raise (InternalException
                 ["ValidationException"; "Cannot delete event bus default."])).
Proof. intros ->. reflexivity. Qed.

Lemma delete_absent :
  name <> "default" ->
  _event_buses w !! key = None ->
  delete_event_bus context name w = (w, Raise (KeyError key)).
Proof.
  intros Hname Hkey. unfold delete_event_bus.
  apply String.eqb_neq in Hname. rewrite Hname.
  unfold dict_pop. fold key. rewrite Hkey. reflexivity.
Qed.

Lemma delete_present r :
  name <> "default" ->
  _event_buses w !! key = Some r ->
  delete_event_bus context name w
  = ({| objects := alter EventBus.delete r (objects w);
        _event_buses := delete key (_event_buses w) |},
     Return tt).
Proof.
  intros Hname Hkey. unfold delete_event_bus.
  apply String.eqb_neq in Hname. rewrite Hname.
  unfold dict_pop. fold key. rewrite Hkey.
  assert (ref_truthy (objects w) r = true) as ->; [|reflexivity].
  unfold ref_truthy. destruct (objects w !! r); reflexivity.
Qed.

(** A deletion removes at most its own key. *)
Lemma delete_keeps_keys key' :
  (name <> "default" -> key' <> key) ->
  is_Some (_event_buses w !! key') ->
  is_Some (_event_buses (fst (delete_event_bus context name w)) !! key').
Proof.
  intros Hne Hsome.
  destruct (decide (name = "default")) as [Hd|Hd].
  - rewrite delete_default by exact Hd. exact Hsome.
  - destruct (_event_buses w !! key) as [r|] eqn:Hkey.
    + rewrite (delete_present r) by assumption. simpl.
      rewrite lookup_delete_ne; [exact Hsome|]. specialize (Hne Hd). congruence.
    + rewrite delete_absent by assumption. exact Hsome.
Qed.

End Handlers.

(** ** Deleting the default bus *)

(** C1. For every region and every world, [DeleteEventBus] of the name
    "default" raises before any key is computed and leaves the world as it
    was; the exception is never a [ResourceNotFoundException]. It is an
    [InternalException] built with the arguments "ValidationException" and
    "Cannot delete event bus default.", not an instance of the
    [ValidationException] class that the module declares. *)
Theorem delete_default_raises_InternalException :
  forall context w,
    exists e,
      delete_event_bus context "default" w = (w, Raise e)
      /\ e = InternalException
               ["ValidationException"; "Cannot delete event bus default."]
      /\ class_of e = cls_InternalException
      /\ class_of e <> cls_ValidationException
      /\ class_of e <> cls_ResourceNotFoundException.
Proof.
  intros context w. eexists. split; [apply delete_default; reflexivity|].
  split; [reflexivity|]. split; [reflexivity|]. split; discriminate.
Qed.

(** ** Deleting a bus that is not registered *)

(** C2. On the world the constructor leaves, [DeleteEventBus] of "my-bus" in
    "us-east-1" (a key the dictionary does not hold) leaves the world
    unchanged but raises the [KeyError] of [dict.pop], not a
    [ResourceNotFoundException]: the branch that builds the not-found
    exception is never reached. *)
Theorem delete_unregistered_raises_KeyError :
  _event_buses (__init__ []) !! _get_event_bus_key "my-bus" "us-east-1" = None
  /\ delete_event_bus {| region := "us-east-1"; account_id := "000000000000" |}
       "my-bus" (__init__ [])
     = (__init__ [], Raise (KeyError "my-bus-us-east-1"))
  /\ class_of (KeyError "my-bus-us-east-1") <> cls_ResourceNotFoundException.
Proof.
  split; [reflexivity|]. split; [|discriminate].
  apply delete_absent; [discriminate|reflexivity].
Qed.

(** The same for every name other than "default", region and world: an
    unregistered key makes [dict.pop] raise. *)
Lemma delete_unregistered_never_not_found context name w :
  name <> "default" ->
  _event_buses w !! _get_event_bus_key name (region context) = None ->
  fst (delete_event_bus context name w) = w
  /\ exists e, snd (delete_event_bus context name w) = Raise e
               /\ class_of e = cls_KeyError.
Proof.
  intros Hname Hkey. rewrite delete_absent by assumption.
  split; [reflexivity|]. eexists. split; reflexivity.
Qed.

(** The not-found branch of [delete_event_bus] is dead: whenever the handler
    raises, the exception is the [InternalException] of the name check or the
    [KeyError] of [dict.pop]. *)
Lemma delete_never_raises_not_found context name w e :
  snd (delete_event_bus context name w) = Raise e ->
  class_of e <> cls_ResourceNotFoundException.
Proof.
  destruct (decide (name = "default")) as [Hd|Hd].
  - rewrite delete_default by exact Hd. intros [= <-]. discriminate.
  - destruct (_event_buses w !! _get_event_bus_key name (region context))
      as [r|] eqn:Hkey.
    + rewrite (delete_present _ _ _ r) by assumption. discriminate.
    + rewrite delete_absent by assumption. intros [= <-]. discriminate.
Qed.

(** ** The default bus after construction *)

(** C3. The constructor registers the default bus, with the ARN
    arn:aws:events:us-east-1:000000000000:event-bus/default, under the bare
    key "default"; the composite key of ("default", "us-east-1") is not in the
    dictionary, and the lookup of ("default", "us-east-1") raises
    [ResourceNotFoundException]. *)
Theorem default_bus_not_under_composite_key :
  forall objs,
    _event_buses (__init__ objs) !! "default" = Some (List.length objs)
    /\ objects (__init__ objs) !! List.length objs
       = Some (EventBus.__init__ "default"
                 "arn:aws:events:us-east-1:000000000000:event-bus/default")
    /\ _event_buses (__init__ objs) !! _get_event_bus_key "default" "us-east-1"
       = None
    /\ _get_event_bus "default" "us-east-1" (__init__ objs)
       = Raise (ResourceNotFoundException
                  ["EventBus default for region us-east-1 does not exist"]).
Proof.
  intros objs. split; [|split; [|split]].
  - reflexivity.
  - unfold __init__, _add_default_event_bus. simpl.
    rewrite lookup_app_r by lia. rewrite Nat.sub_diag. reflexivity.
  - reflexivity.
  - reflexivity.
Qed.

(** ** Creating a bus and looking it up *)

(** C4. For a name other than "default", [CreateEventBus] returns the ARN
    arn:aws:events:{region}:{account_id}:event-bus/{name}, and the lookup of
    the same name and region then returns a bus of that name and that ARN. *)
Theorem create_then_lookup :
  forall context name w,
    name <> "default" ->
    let arn := "arn:aws:events:" +:+ region context +:+ ":"
               +:+ account_id context +:+ ":event-bus/" +:+ name in
    let w' := fst (create_event_bus context name w) in
    snd (create_event_bus context name w) = Return {| EventBusArn := arn |}
    /\ exists r bus,
         _get_event_bus name (region context) w' = Return r
         /\ objects w' !! r = Some bus
         /\ EventBus.name bus = name
         /\ EventBus.arn bus = arn.
Proof.
  intros context name w _ arn w'. split; [reflexivity|].
  exists (List.length (objects w)), (EventBus.__init__ name arn).
  split; [|split; [|split]]; try reflexivity.
  - unfold _get_event_bus. subst w'. rewrite create_lookup_same. reflexivity.
  - subst w'. apply create_new_object.
Qed.

Lemma create_then_lookup_witness :
  let context := {| region := "eu-west-1"; account_id := "123456789012" |} in
  let w' := fst (create_event_bus context "orders" (__init__ [])) in
  snd (create_event_bus context "orders" (__init__ []))
  = Return {| EventBusArn := "arn:aws:events:eu-west-1:123456789012:event-bus/orders" |}
  /\ exists r bus,
       _get_event_bus "orders" "eu-west-1" w' = Return r
       /\ objects w' !! r = Some bus
       /\ EventBus.name bus = "orders"
       /\ EventBus.arn bus = "arn:aws:events:eu-west-1:123456789012:event-bus/orders".
Proof.
  apply (create_then_lookup
           {| region := "eu-west-1"; account_id := "123456789012" |}
           "orders" (__init__ [])).
  discriminate.
Defined.

(** ** Deleting a registered bus *)

(** C6. For a name other than "default" that is registered for the region
    with a live instance, [DeleteEventBus] returns; afterwards the lookup
    of the name and region raises [ResourceNotFoundException] with the message
    naming both, and the instance that was registered has kept its name and
    ARN and has an empty rule dictionary. *)
Theorem delete_then_lookup :
  forall context name w r bus,
    name <> "default" ->
    _get_event_bus name (region context) w = Return r ->
    objects w !! r = Some bus ->
    let w' := fst (delete_event_bus context name w) in
    snd (delete_event_bus context name w) = Return tt
    /\ _get_event_bus name (region context) w'
       = Raise (ResourceNotFoundException
                  ["EventBus " +:+ name +:+ " for region " +:+ region context
                   +:+ " does not exist"])
    /\ objects w' !! r
       = Some {| EventBus.name := EventBus.name bus;
                 EventBus.arn := EventBus.arn bus;
                 EventBus._rules := ∅ |}
    /\ (forall bus' rule_name,
          objects w' !! r = Some bus' -> EventBus._rules bus' !! rule_name = None).
Proof.
  intros context name w r bus Hname Hget Hobj w'.
  assert (_event_buses w !! _get_event_bus_key name (region context) = Some r)
    as Hkey.
  { unfold _get_event_bus in Hget.
    destruct (_event_buses w !! _) as [r'|]; [congruence|discriminate]. }
  subst w'. rewrite (delete_present _ _ _ r) by assumption. simpl.
  assert (alter EventBus.delete r (objects w) !! r
          = Some {| EventBus.name := EventBus.name bus;
                    EventBus.arn := EventBus.arn bus;
                    EventBus._rules := ∅ |}) as Hcleared.
  { rewrite list_lookup_alter_eq, Hobj. reflexivity. }
  split; [reflexivity|]. split; [|split].
  - unfold _get_event_bus. simpl. rewrite lookup_delete_eq. reflexivity.
  - exact Hcleared.
  - intros bus' rule_name. rewrite Hcleared. intros [= <-]. apply lookup_empty.
Qed.

Lemma delete_then_lookup_witness :
  let context := {| region := "us-east-1"; account_id := "000000000000" |} in
  let w' := fst (delete_event_bus context "orders" world_with_rule) in
  snd (delete_event_bus context "orders" world_with_rule) = Return tt
  /\ _get_event_bus "orders" "us-east-1" w'
     = Raise (ResourceNotFoundException
                ["EventBus orders for region us-east-1 does not exist"])
  /\ objects w' !! 0
     = Some {| EventBus.name := "orders";
               EventBus.arn := "arn:aws:events:us-east-1:000000000000:event-bus/orders";
               EventBus._rules := ∅ |}
  /\ (forall bus' rule_name,
        objects w' !! 0 = Some bus' -> EventBus._rules bus' !! rule_name = None).
Proof.
  refine (delete_then_lookup
            {| region := "us-east-1"; account_id := "000000000000" |}
            "orders" world_with_rule 0
            {| EventBus.name := "orders";
               EventBus.arn := "arn:aws:events:us-east-1:000000000000:event-bus/orders";
               EventBus._rules :=
                 {[ "nightly" := Rule.__init__ "nightly" None None None ]} |}
            _ _ _).
  - discriminate.
  - reflexivity.
  - reflexivity.
Defined.

(** ** Regions do not interfere *)

(** C8. For regions R1 different from R2, [CreateEventBus] of a name in R1
    leaves the lookup of that name in R2 with the outcome it had (the same
    reference or the same exception), and leaves every instance that existed
    with the fields it had. *)
Theorem create_other_region_frame :
  forall context name region2 w,
    region context <> region2 ->
    let w' := fst (create_event_bus context name w) in
    _get_event_bus name region2 w' = _get_event_bus name region2 w
    /\ (forall r bus, objects w !! r = Some bus -> objects w' !! r = Some bus).
Proof.
  intros context name region2 w Hne w'. subst w'. split.
  - unfold _get_event_bus. rewrite create_lookup_other; [reflexivity|].
    apply key_region_ne. congruence.
  - intros r bus. apply create_old_objects.
Qed.

Lemma create_other_region_frame_witness :
  let context := {| region := "us-east-1"; account_id := "000000000000" |} in
  let w' := fst (create_event_bus context "orders" (__init__ [])) in
  _get_event_bus "orders" "eu-west-1" w'
  = _get_event_bus "orders" "eu-west-1" (__init__ [])
  /\ (forall r bus,
        objects (__init__ []) !! r = Some bus -> objects w' !! r = Some bus).
Proof.
  apply (create_other_region_frame
           {| region := "us-east-1"; account_id := "000000000000" |}
           "orders" "eu-west-1" (__init__ [])).
  discriminate.
Defined.

(** The references of the dictionary stay live: the constructor establishes
    [wf] and both handlers keep it. *)
Lemma wf_init objs : wf (__init__ objs).
Proof.
  intros key r. unfold __init__, _add_default_event_bus. simpl.
  intros Hkey. apply lookup_insert_Some in Hkey as [[_ <-]|[_ Hkey]].
  - rewrite lookup_app_r by lia. rewrite Nat.sub_diag. eauto.
  - rewrite lookup_empty in Hkey. discriminate.
Qed.

Lemma wf_create context name w :
  wf w -> wf (fst (create_event_bus context name w)).
Proof.
  intros Hwf key r. rewrite create_buses.
  intros Hkey. apply lookup_insert_Some in Hkey as [[_ <-]|[_ Hkey]].
  - rewrite create_new_object. eauto.
  - destruct (Hwf key r Hkey) as [bus Hbus].
    exists bus. apply create_old_objects, Hbus.
Qed.

Lemma wf_delete context name w :
  wf w -> wf (fst (delete_event_bus context name w)).
Proof.
  intros Hwf.
  destruct (decide (name = "default")) as [Hd|Hd].
  - rewrite delete_default by exact Hd. exact Hwf.
  - destruct (_event_buses w !! _get_event_bus_key name (region context))
      as [r|] eqn:Hkey.
    + rewrite (delete_present _ _ _ r) by assumption. simpl.
      intros key r' Hlook. simpl in Hlook.
      apply lookup_delete_Some in Hlook as [_ Hlook].
      destruct (Hwf key r' Hlook) as [bus Hbus]. simpl.
      rewrite list_lookup_alter. destruct (decide (r = r')) as [->|_].
      * rewrite Hbus. simpl. eauto.
      * eauto.
    + rewrite delete_absent by assumption. exact Hwf.
Qed.

(** ** Batches of creations *)

Lemma create_event_buses_cons rq reqs w :
  create_event_buses (rq :: reqs) w
  = create_event_buses reqs (fst (create_event_bus (fst rq) (snd rq) w)).
Proof. reflexivity. Qed.

(** A registered bus with a live instance is untouched by creations under
    other keys. *)
Lemma create_event_buses_preserve reqs :
  forall w key r bus,
    key ∉ map key_of reqs ->
    _event_buses w !! key = Some r ->
    objects w !! r = Some bus ->
    _event_buses (create_event_buses reqs w) !! key = Some r
    /\ objects (create_event_buses reqs w) !! r = Some bus.
Proof.
  induction reqs as [|rq reqs IH]; intros w key r bus Hnotin Hkey Hobj.
  - split; assumption.
  - rewrite create_event_buses_cons. simpl in Hnotin.
    apply not_elem_of_cons in Hnotin as [Hne Hnotin].
    apply IH; [exact Hnotin| |].
    + rewrite create_lookup_other; [exact Hkey|exact Hne].
    + apply create_old_objects, Hobj.
Qed.

(** C5, as stated, fails: ("a-b", "c") and ("a", "b-c") are distinct pairs
    with the same key "a-b-c"; after both creations the lookup of
    ("a-b", "c") returns the instance built for ("a", "b-c"). *)
Lemma colliding_creations_shadow :
  let reqs := [ ({| region := "c"; account_id := "000000000000" |}, "a-b");
                ({| region := "b-c"; account_id := "000000000000" |}, "a") ] in
  let w' := create_event_buses reqs (__init__ []) in
  NoDup (map pair_of reqs)
  /\ (exists r bus,
        _get_event_bus "a-b" "c" w' = Return r
        /\ objects w' !! r = Some bus
        /\ EventBus.name bus = "a"
        /\ EventBus.arn bus = "arn:aws:events:b-c:000000000000:event-bus/a")
  /\ ~ all_lookupable reqs (__init__ []).
Proof.
  intros reqs w'. split; [|split].
  - apply NoDup_cons. split.
    + intros Hin. apply list_elem_of_singleton in Hin. discriminate.
    + apply NoDup_singleton.
  - exists 2, (EventBus.__init__ "a" "arn:aws:events:b-c:000000000000:event-bus/a").
    repeat split.
  - intros Hall.
    destruct (Hall {| region := "c"; account_id := "000000000000" |} "a-b")
      as (r & Hget & Hobj).
    + apply list_elem_of_here.
    + vm_compute in Hget. injection Hget as <-.
      vm_compute in Hobj. discriminate.
Qed.

(** C5, amended. When the requests have pairwise distinct keys, every
    requested bus is found after the batch under its own name and region, and
    is the instance built for its request. *)
Theorem distinct_keys_all_lookupable :
  forall reqs w, NoDup (map key_of reqs) -> all_lookupable reqs w.
Proof.
  induction reqs as [|rq reqs IH]; intros w Hnodup context name Hin.
  - apply elem_of_nil in Hin. contradiction.
  - simpl in Hnodup. apply NoDup_cons in Hnodup as [Hfresh Hnodup].
    rewrite create_event_buses_cons.
    apply elem_of_cons in Hin as [Heq|Hin].
    + subst rq. unfold key_of in Hfresh at 1.
      cbn [fst snd] in Hfresh |- *.
      exists (List.length (objects w)).
      unfold _get_event_bus.
      destruct (create_event_buses_preserve reqs
                  (fst (create_event_bus context name w))
                  (_get_event_bus_key name (region context))
                  (List.length (objects w))
                  (EventBus.__init__ name
                     (_get_event_bus_arn name (region context) (account_id context))))
        as [Hkey Hobj].
      * exact Hfresh.
      * apply create_lookup_same.
      * apply create_new_object.
      * rewrite Hkey. split; [reflexivity|exact Hobj].
    + apply IH; assumption.
Qed.

Lemma distinct_keys_all_lookupable_witness :
  all_lookupable
    [ ({| region := "us-east-1"; account_id := "000000000000" |}, "orders");
      ({| region := "eu-west-1"; account_id := "000000000000" |}, "orders");
      ({| region := "us-east-1"; account_id := "111111111111" |}, "billing") ]
    (__init__ []).
Proof.
  apply distinct_keys_all_lookupable.
  vm_compute. repeat constructor; intros Hin;
    repeat (apply elem_of_cons in Hin as [Hin|Hin]; [discriminate|]);
    apply elem_of_nil in Hin; contradiction.
Defined.

(** Names without a hyphen give pairwise distinct keys to pairwise distinct
    pairs: the name is then the part of the key before its first hyphen. *)
Lemma key_inj_no_hyphen name1 region1 name2 region2 :
  occurs "-" name1 = false ->
  occurs "-" name2 = false ->
  _get_event_bus_key name1 region1 = _get_event_bus_key name2 region2 ->
  name1 = name2 /\ region1 = region2.
Proof.
  unfold _get_event_bus_key.
  revert name2. induction name1 as [|c1 n1 IH]; intros [|c2 n2] H1 H2 Heq;
    simpl in *.
  - injection Heq as Heq. split; [reflexivity|exact Heq].
  - injection Heq as Hc _. subst c2. discriminate.
  - injection Heq as Hc _. subst c1. discriminate.
  - injection Heq as Hc Heq. subst c2.
    apply orb_false_iff in H1 as [_ H1]. apply orb_false_iff in H2 as [_ H2].
    destruct (IH n2 H1 H2 Heq) as [-> ->]. split; reflexivity.
Qed.

(** ** A bus created under the name "default" *)

Lemma run_cons rq rqs w : run (rq :: rqs) w = run rqs (handle w rq).
Proof. reflexivity. Qed.

(** A key stays in the dictionary along a run in which no deletion that gets
    past the name check is for that key. *)
Lemma run_keeps_key rqs :
  forall w key,
    (forall context name,
       DeleteEventBus context name ∈ rqs ->
       name <> "default" ->
       _get_event_bus_key name (region context) <> key) ->
    is_Some (_event_buses w !! key) ->
    is_Some (_event_buses (run rqs w) !! key).
Proof.
  induction rqs as [|rq rqs IH]; intros w key Hdel Hsome; [exact Hsome|].
  rewrite run_cons. apply IH.
  - intros context name Hin. apply Hdel. apply list_elem_of_further, Hin.
  - destruct rq as [context name|context name]; simpl.
    + apply create_keeps_keys, Hsome.
    + apply delete_keeps_keys; [|exact Hsome].
      intros Hname Heq. apply (Hdel context name); [|exact Hname|congruence].
      apply list_elem_of_here.
Qed.

(** A registered bus that owns no rules stays registered, as the same
    instance with the same fields, along a run in which no creation and no
    deletion that gets past the name check is for its key. *)
Lemma run_keeps_bus rqs :
  forall w key r name arn,
    (forall context' name',
       CreateEventBus context' name' ∈ rqs ->
       _get_event_bus_key name' (region context') <> key) ->
    (forall context' name',
       DeleteEventBus context' name' ∈ rqs ->
       name' <> "default" ->
       _get_event_bus_key name' (region context') <> key) ->
    _event_buses w !! key = Some r ->
    objects w !! r = Some (EventBus.__init__ name arn) ->
    _event_buses (run rqs w) !! key = Some r
    /\ objects (run rqs w) !! r = Some (EventBus.__init__ name arn).
Proof.
  induction rqs as [|rq rqs IH]; intros w key r name arn Hcre Hdel Hkey Hobj;
    [split; assumption|].
  rewrite run_cons. apply IH.
  - intros context' name' Hin. apply Hcre, list_elem_of_further, Hin.
  - intros context' name' Hin. apply Hdel, list_elem_of_further, Hin.
  - destruct rq as [context' name'|context' name']; cbn [handle].
    + rewrite create_lookup_other; [exact Hkey|].
      intros Heq. apply (Hcre context' name'); [apply list_elem_of_here|].
      congruence.
    + destruct (decide (name' = "default")) as [Hd|Hd].
      { rewrite delete_default by exact Hd. exact Hkey. }
      destruct (_event_buses w !! _get_event_bus_key name' (region context'))
        as [r0|] eqn:Hkey0.
      2:{ rewrite delete_absent by assumption. exact Hkey. }
      rewrite (delete_present context' name' w r0) by assumption. simpl.
      rewrite lookup_delete_ne; [exact Hkey|].
      apply (Hdel context' name'); [apply list_elem_of_here|exact Hd].
  - destruct rq as [context' name'|context' name']; cbn [handle].
    + apply create_old_objects, Hobj.
    + destruct (decide (name' = "default")) as [Hd|Hd].
      { rewrite delete_default by exact Hd. exact Hobj. }
      destruct (_event_buses w !! _get_event_bus_key name' (region context'))
        as [r0|] eqn:Hkey0.
      2:{ rewrite delete_absent by assumption. exact Hobj. }
      rewrite (delete_present context' name' w r0) by assumption. simpl.
      rewrite list_lookup_alter. destruct (decide (r0 = r)) as [->|_].
      * rewrite Hobj. reflexivity.
      * exact Hobj.
Qed.

(** C10, as stated, fails: the bus created as ("default", "us-east-1") sits
    under the key "default-us-east-1", which is also the key of
    ("default-us", "east-1"); deleting the latter returns and removes it.
    Creations under the same key replace it as well: creating
    ("default-us", "east-1") leaves a bus named "default-us" under the key,
    and creating ("default", "us-east-1") again, from another account, leaves
    another instance with the ARN of that account. *)
Lemma created_default_removed_through_colliding_key :
  let context := {| region := "us-east-1"; account_id := "000000000000" |} in
  let context' := {| region := "east-1"; account_id := "000000000000" |} in
  let context'' := {| region := "us-east-1"; account_id := "111111111111" |} in
  let w1 := fst (create_event_bus context "default" (__init__ [])) in
  let w2 := run [DeleteEventBus context' "default-us"] w1 in
  let w3 := run [CreateEventBus context' "default-us"] w1 in
  let w4 := run [CreateEventBus context'' "default"] w1 in
  _get_event_bus "default" "us-east-1" w1 = Return 1
  /\ snd (delete_event_bus context' "default-us" w1) = Return tt
  /\ _event_buses w2 !! _get_event_bus_key "default" "us-east-1" = None
  /\ _get_event_bus "default" "us-east-1" w2
     = Raise (ResourceNotFoundException
                ["EventBus default for region us-east-1 does not exist"])
  /\ _get_event_bus "default" "us-east-1" w3 = Return 2
  /\ objects w3 !! 2
     = Some (EventBus.__init__ "default-us"
               "arn:aws:events:east-1:000000000000:event-bus/default-us")
  /\ _get_event_bus "default" "us-east-1" w4 = Return 2
  /\ objects w4 !! 2
     = Some (EventBus.__init__ "default"
               "arn:aws:events:us-east-1:111111111111:event-bus/default").
Proof. repeat split. Qed.

(** C10, amended. [CreateEventBus] of the name "default" returns and
    registers the bus under the composite key of ("default", region); every
    later [DeleteEventBus] of the name "default" raises and leaves the world
    as it was; and along every run of requests in which no creation, and no
    deletion of another name, has the same composite key, the lookup of
    ("default", region) keeps returning the instance that was created, with
    the name "default", the ARN it was created with and no rules. *)
Theorem created_default_stays_registered :
  forall context w rqs,
    (forall context' name',
       CreateEventBus context' name' ∈ rqs ->
       _get_event_bus_key name' (region context')
       <> _get_event_bus_key "default" (region context)) ->
    (forall context' name',
       DeleteEventBus context' name' ∈ rqs ->
       name' <> "default" ->
       _get_event_bus_key name' (region context')
       <> _get_event_bus_key "default" (region context)) ->
    let w1 := fst (create_event_bus context "default" w) in
    let created := List.length (objects w) in
    let bus :=
      EventBus.__init__ "default"
        ("arn:aws:events:" +:+ region context +:+ ":" +:+ account_id context
         +:+ ":event-bus/default") in
    (exists response, snd (create_event_bus context "default" w) = Return response)
    /\ _get_event_bus "default" (region context) w1 = Return created
    /\ objects w1 !! created = Some bus
    /\ (forall context' w',
          exists e, delete_event_bus context' "default" w' = (w', Raise e))
    /\ _get_event_bus "default" (region context) (run rqs w1) = Return created
    /\ objects (run rqs w1) !! created = Some bus.
Proof.
  intros context w rqs Hcre Hdel w1 created bus.
  assert (_event_buses w1 !! _get_event_bus_key "default" (region context)
          = Some created) as Hkey1
    by (subst w1; apply create_lookup_same).
  assert (objects w1 !! created = Some bus) as Hobj1
    by (subst w1; apply create_new_object).
  destruct (run_keeps_bus rqs w1 _ created _ _ Hcre Hdel Hkey1 Hobj1)
    as [Hkey Hobj].
  split; [eexists; apply create_returns|].
  split; [unfold _get_event_bus; rewrite Hkey1; reflexivity|].
  split; [exact Hobj1|].
  split; [intros context' w'; eexists; apply delete_default; reflexivity|].
  split; [unfold _get_event_bus; rewrite Hkey; reflexivity|exact Hobj].
Qed.

Lemma created_default_stays_registered_witness :
  let context := {| region := "us-east-1"; account_id := "000000000000" |} in
  let rqs :=
    [ DeleteEventBus {| region := "eu-west-1"; account_id := "1" |} "default";
      CreateEventBus {| region := "us-east-1"; account_id := "1" |} "orders";
      CreateEventBus {| region := "eu-west-1"; account_id := "1" |} "default";
      DeleteEventBus {| region := "us-east-1"; account_id := "1" |} "orders";
      DeleteEventBus {| region := "us-east-1"; account_id := "1" |} "default" ] in
  let w1 := fst (create_event_bus context "default" (__init__ [])) in
  let bus :=
    EventBus.__init__ "default"
      "arn:aws:events:us-east-1:000000000000:event-bus/default" in
  (exists response,
     snd (create_event_bus context "default" (__init__ [])) = Return response)
  /\ _get_event_bus "default" "us-east-1" w1 = Return 1
  /\ objects w1 !! 1 = Some bus
  /\ (forall context' w',
        exists e, delete_event_bus context' "default" w' = (w', Raise e))
  /\ _get_event_bus "default" "us-east-1" (run rqs w1) = Return 1
  /\ objects (run rqs w1) !! 1 = Some bus.
Proof.
  refine (created_default_stays_registered
            {| region := "us-east-1"; account_id := "000000000000" |}
            (__init__ []) _ _ _).
  - intros context' name' Hin.
    repeat (apply elem_of_cons in Hin as [Hin|Hin];
            [first [ discriminate Hin
                   | injection Hin as -> ->; vm_compute; discriminate ]|]).
    apply elem_of_nil in Hin. contradiction.
  - intros context' name' Hin Hname.
    repeat (apply elem_of_cons in Hin as [Hin|Hin];
            [first [ discriminate Hin
                   | injection Hin as -> ->;
                     first [ exfalso; apply Hname; reflexivity
                           | vm_compute; discriminate ] ]|]).
    apply elem_of_nil in Hin. contradiction.
Defined.

(** ** The bus name of a name or an ARN *)

Section Split.

Variable sep : ascii.

Lemma split_not_nil s : split sep s <> [].
Proof.
  destruct s as [|c s]; simpl; [discriminate|].
  destruct (Ascii.eqb c sep); [discriminate|].
  destruct (split sep s); discriminate.
Qed.

(** Without the separator there is one piece, the string itself. *)
Lemma split_no_sep s : occurs sep s = false -> split sep s = [s].
Proof.
  induction s as [|c s IH]; simpl; [reflexivity|].
  intros Hocc. apply orb_false_iff in Hocc as [Hc Hocc].
  rewrite Hc, (IH Hocc). reflexivity.
Qed.

(** Splitting distributes over an occurrence of the separator. *)
Lemma split_app p r :
  split sep (p +:+ String sep r) = (split sep p ++ split sep r)%list.
Proof.
  induction p as [|c p IH]; simpl.
  - rewrite Ascii.eqb_refl. reflexivity.
  - destruct (Ascii.eqb c sep).
    + rewrite IH. reflexivity.
    + rewrite IH. destruct (split sep p) as [|w ws] eqn:Hp.
      * exfalso. eapply split_not_nil, Hp.
      * reflexivity.
Qed.

(** A string in which the separator occurs ends with a last occurrence
    followed by a part free of it. *)
Lemma last_occurrence s :
  occurs sep s = true ->
  exists p r, s = p +:+ String sep r /\ occurs sep r = false.
Proof.
  induction s as [|c s IH]; simpl; [discriminate|].
  destruct (occurs sep s) eqn:Hs.
  - intros _. destruct (IH eq_refl) as (p & r & -> & Hr).
    exists (String c p), r. split; [reflexivity|exact Hr].
  - rewrite orb_false_r. intros Hc. apply Ascii.eqb_eq in Hc. subst c.
    exists EmptyString, s. split; [reflexivity|exact Hs].
Qed.

Lemma last_piece s :
  exists piece,
    last (split sep s) = Some piece
    /\ occurs sep piece = false
    /\ ((occurs sep s = false /\ piece = s)
        \/ exists p, s = p +:+ String sep piece).
Proof.
  destruct (occurs sep s) eqn:Hs.
  - destruct (last_occurrence s Hs) as (p & r & -> & Hr).
    exists r. rewrite split_app, (split_no_sep r Hr), last_snoc.
    split; [reflexivity|]. split; [exact Hr|]. right. exists p. reflexivity.
  - exists s. rewrite (split_no_sep s Hs).
    split; [reflexivity|]. split; [exact Hs|]. left. split; reflexivity.
Qed.

End Split.

(** C7. [None] and the empty string give "default". Any other input gives
    its part after the last '/': a string free of '/' that is the whole input
    when the input has no '/', and otherwise is what follows a '/' of the
    input. The ARN arn:aws:events:us-east-1:123:event-bus/my-bus gives
    "my-bus", and so does the bare name "my-bus". *)
Theorem extract_event_bus_name_spec :
  _extract_event_bus_name None = Return "default"
  /\ _extract_event_bus_name (Some "") = Return "default"
  /\ (forall c s,
        exists name,
          _extract_event_bus_name (Some (String c s)) = Return name
          /\ occurs "/" name = false
          /\ ((occurs "/" (String c s) = false /\ name = String c s)
              \/ exists prefix, String c s = prefix +:+ "/" +:+ name))
  /\ _extract_event_bus_name
       (Some "arn:aws:events:us-east-1:123:event-bus/my-bus")
     = Return "my-bus"
  /\ _extract_event_bus_name (Some "my-bus") = Return "my-bus".
Proof.
  split; [reflexivity|]. split; [reflexivity|].
  split; [|split; reflexivity].
  intros c s.
  destruct (last_piece "/" (String c s)) as (piece & Hlast & Hfree & Hshape).
  exists piece. split; [|split; [exact Hfree|exact Hshape]].
  unfold _extract_event_bus_name, index_minus_1.
  cbn [str_falsy]. rewrite Hlast. reflexivity.
Qed.

(** * Further properties of the module *)

(** ** Strings *)

Lemma append_cons x (a b : string) : String x a +:+ b = String x (a +:+ b).
Proof. reflexivity. Qed.

Lemma append_assoc (a b c : string) : (a +:+ b) +:+ c = a +:+ (b +:+ c).
Proof.
  induction a as [|x a IH]; [reflexivity|].
  rewrite !append_cons, IH. reflexivity.
Qed.

Lemma length_append (a b : string) :
  String.length (a +:+ b) = String.length a + String.length b.
Proof.
  induction a as [|x a IH]; [reflexivity|].
  rewrite append_cons. simpl. rewrite IH. reflexivity.
Qed.

Lemma append_inv_tail (a1 a2 s : string) : a1 +:+ s = a2 +:+ s -> a1 = a2.
Proof.
  revert a2. induction a1 as [|x a1 IH]; intros [|y a2] Heq.
  - reflexivity.
  - apply (f_equal String.length) in Heq.
    rewrite !length_append in Heq. simpl in Heq. lia.
  - apply (f_equal String.length) in Heq.
    rewrite !length_append in Heq. simpl in Heq. lia.
  - rewrite !append_cons in Heq. injection Heq as -> Heq.
    rewrite (IH a2 Heq). reflexivity.
Qed.

Lemma occurs_append c (a b : string) :
  occurs c (a +:+ b) = occurs c a || occurs c b.
Proof.
  induction a as [|x a IH]; [reflexivity|].
  rewrite append_cons. simpl. rewrite IH. apply orb_assoc.
Qed.

(** Two strings cut at a separator that does not occur before the cut are
    equal only if both parts are. *)
Lemma append_sep_inj c (a1 b1 a2 b2 : string) :
  occurs c a1 = false ->
  occurs c a2 = false ->
  a1 +:+ String c b1 = a2 +:+ String c b2 ->
  a1 = a2 /\ b1 = b2.
Proof.
  revert a2. induction a1 as [|x a1 IH]; intros [|y a2] H1 H2 Heq;
    rewrite ?append_cons in Heq; simpl in H1, H2.
  - injection Heq as Heq. split; [reflexivity|exact Heq].
  - injection Heq as Hc _. subst y. rewrite Ascii.eqb_refl in H2. discriminate.
  - injection Heq as Hc _. subst x. rewrite Ascii.eqb_refl in H1. discriminate.
  - injection Heq as Hc Heq. subst y.
    apply orb_false_iff in H1 as [_ H1]. apply orb_false_iff in H2 as [_ H2].
    destruct (IH a2 H1 H2 Heq) as [-> ->]. split; reflexivity.
Qed.

(** ** Keys and ARNs *)

Lemma key_name_inj name1 name2 region :
  _get_event_bus_key name1 region = _get_event_bus_key name2 region ->
  name1 = name2.
Proof.
  unfold _get_event_bus_key. intros Heq.
  eapply append_inv_tail, Heq.
Qed.

(** A composite key holds a hyphen, so it is never the bare key "default". *)
Lemma key_not_default name region :
  _get_event_bus_key name region <> "default".
Proof.
  intros Heq. apply (f_equal (occurs "-")) in Heq.
  unfold _get_event_bus_key in Heq. rewrite !occurs_append in Heq.
  simpl in Heq. rewrite orb_true_r in Heq. discriminate.
Qed.

(** X1. Two requests share a composite key only when their names and their
    regions both agree or both differ: one name in two regions, or two names
    in one region, never collide. *)
Theorem key_collision_needs_both :
  forall name1 region1 name2 region2,
    _get_event_bus_key name1 region1 = _get_event_bus_key name2 region2 ->
    (name1 = name2 <-> region1 = region2).
Proof.
  intros name1 region1 name2 region2 Heq. split.
  - intros ->. eapply key_region_inj, Heq.
  - intros ->. eapply key_name_inj, Heq.
Qed.

Lemma key_collision_needs_both_witness :
  "a-b" = "a" <-> "c" = "b-c".
Proof.
  apply (key_collision_needs_both "a-b" "c" "a" "b-c"). reflexivity.
Defined.

(** X2. When regions and account ids hold no colon, the ARN determines the name,
    the region and the account id. *)
Theorem arn_injective :
  forall name1 region1 account1 name2 region2 account2,
    occurs ":" region1 = false ->
    occurs ":" account1 = false ->
    occurs ":" region2 = false ->
    occurs ":" account2 = false ->
    _get_event_bus_arn name1 region1 account1
    = _get_event_bus_arn name2 region2 account2 ->
    name1 = name2 /\ region1 = region2 /\ account1 = account2.
Proof.
  intros name1 region1 account1 name2 region2 account2 Hr1 Ha1 Hr2 Ha2 Heq.
  unfold _get_event_bus_arn in Heq.
  apply (inj (String.append "arn:aws:events:")) in Heq.
  apply (append_sep_inj ":" region1 _ region2 _ Hr1 Hr2) in Heq
    as [Hregion Heq].
  apply (append_sep_inj ":" account1 _ account2 _ Ha1 Ha2) in Heq
    as [Haccount Heq].
  apply (inj (String.append "event-bus/")) in Heq.
  repeat split; assumption.
Qed.

Lemma arn_injective_witness :
  "orders" = "orders" /\ "us-east-1" = "us-east-1"
  /\ "000000000000" = "000000000000".
Proof.
  apply (arn_injective "orders" "us-east-1" "000000000000"
           "orders" "us-east-1" "000000000000"); reflexivity.
Defined.

(** ** More on the bus name of a name or an ARN *)

(** What follows a '/' and holds none is the extracted name. *)
Lemma extract_after_slash (p r : string) :
  occurs "/" r = false ->
  _extract_event_bus_name (Some (p +:+ String "/" r)) = Return r.
Proof.
  intros Hr.
  assert (str_falsy (Some (p +:+ String "/" r)) = false) as Hfalsy.
  { destruct p; reflexivity. }
  unfold _extract_event_bus_name, index_minus_1. rewrite Hfalsy.
  rewrite split_app, (split_no_sep "/" r Hr), last_snoc. reflexivity.
Qed.

Lemma extract_bare_name c (s : string) :
  occurs "/" (String c s) = false ->
  _extract_event_bus_name (Some (String c s)) = Return (String c s).
Proof.
  intros Hfree. unfold _extract_event_bus_name, index_minus_1.
  cbn [str_falsy]. rewrite (split_no_sep "/" _ Hfree). reflexivity.
Qed.

Lemma arn_ends_with_name name region account_id :
  _get_event_bus_arn name region account_id
  = ("arn:aws:events:" +:+ region +:+ ":" +:+ account_id +:+ ":event-bus")
    +:+ String "/" name.
Proof. unfold _get_event_bus_arn. rewrite !append_assoc. reflexivity. Qed.

(** X3. For a bus name without '/', the name extracted from the ARN that
    [create_event_bus] returns is the bus name. *)
Theorem extract_of_created_arn :
  forall context name w,
    occurs "/" name = false ->
    exists response,
      snd (create_event_bus context name w) = Return response
      /\ _extract_event_bus_name (Some (EventBusArn response)) = Return name.
Proof.
  intros context name w Hfree. eexists. split; [apply create_returns|].
  cbn [EventBusArn]. rewrite arn_ends_with_name.
  apply extract_after_slash, Hfree.
Qed.

Lemma extract_of_created_arn_witness :
  exists response,
    snd (create_event_bus
           {| region := "eu-west-1"; account_id := "123456789012" |}
           "orders" (__init__ [])) = Return response
    /\ _extract_event_bus_name (Some (EventBusArn response)) = Return "orders".
Proof.
  apply (extract_of_created_arn
           {| region := "eu-west-1"; account_id := "123456789012" |}
           "orders" (__init__ [])).
  reflexivity.
Defined.

(** X4. A non-empty bus name and the ARN composed from it give the same
    extracted name, whatever the region and the account id. *)
Theorem extract_arn_agrees_with_name :
  forall name region account_id,
    name <> "" ->
    _extract_event_bus_name (Some (_get_event_bus_arn name region account_id))
    = _extract_event_bus_name (Some name).
Proof.
  intros name region account_id Hname.
  destruct (occurs "/" name) eqn:Hocc.
  - destruct (last_occurrence "/" name Hocc) as (p & r & -> & Hr).
    rewrite arn_ends_with_name, <- append_cons, <- append_assoc.
    rewrite !(extract_after_slash _ r Hr). reflexivity.
  - rewrite arn_ends_with_name, (extract_after_slash _ name Hocc).
    destruct name as [|c s]; [contradiction|].
    rewrite (extract_bare_name c s Hocc). reflexivity.
Qed.

Lemma extract_arn_agrees_with_name_witness :
  _extract_event_bus_name
    (Some (_get_event_bus_arn "team/orders" "us-east-1" "000000000000"))
  = _extract_event_bus_name (Some "team/orders").
Proof.
  apply (extract_arn_agrees_with_name "team/orders" "us-east-1" "000000000000").
  discriminate.
Defined.

(** X5. The extraction never raises (the list that is indexed is never empty),
    its result holds no '/', and extracting again from a non-empty result
    gives that result; from the empty result it gives "default". *)
Theorem extract_total_and_stable :
  forall event_bus_name_or_arn,
    exists name,
      _extract_event_bus_name event_bus_name_or_arn = Return name
      /\ occurs "/" name = false
      /\ _extract_event_bus_name (Some name)
         = Return (match name with EmptyString => "default" | _ => name end).
Proof.
  intros [[|c s]|].
  - exists "default". repeat split.
  - destruct (last_piece "/" (String c s)) as (piece & Hlast & Hfree & _).
    exists piece. split; [|split; [exact Hfree|]].
    + unfold _extract_event_bus_name, index_minus_1.
      cbn [str_falsy]. rewrite Hlast. reflexivity.
    + destruct piece as [|c' s']; [reflexivity|].
      apply extract_bare_name, Hfree.
  - exists "default". repeat split.
Qed.

(** X6. An input that ends with '/' gives the empty name, not "default". *)
Theorem extract_trailing_slash :
  forall s, _extract_event_bus_name (Some (s +:+ "/")) = Return "".
Proof. intros s. apply (extract_after_slash s ""). reflexivity. Qed.

(** ** Sequences of calls on a rule *)

Lemma calls_frame cs :
  forall rule,
    Rule.name (calls cs rule) = Rule.name rule
    /\ Rule.description (calls cs rule) = Rule.description rule
    /\ Rule.role_arn (calls cs rule) = Rule.role_arn rule.
Proof.
  induction cs as [|c cs IH]; intros rule; [repeat split|].
  change (calls (c :: cs) rule) with (calls cs (call rule c)).
  destruct (IH (call rule c)) as (Hn & Hd & Hr).
  rewrite Hn, Hd, Hr. destruct c; repeat split.
Qed.

(** X7. After any sequence of [enable] and [disable] calls the rule is what the
    last call alone makes of the original rule: the earlier calls leave no
    trace, and the name, description and role ARN are those of the original. *)
Theorem rule_last_call_wins :
  forall cs c rule, calls (cs ++ [c]) rule = call rule c.
Proof.
  intros cs c rule. unfold calls. rewrite foldl_app. simpl.
  fold (calls cs rule).
  destruct (calls_frame cs rule) as (Hn & Hd & Hr).
  destruct c; unfold call, Rule.enable, Rule.disable; rewrite Hn, Hd, Hr;
    reflexivity.
Qed.

(** ** Worlds reached from the constructor *)

Lemma run_invariant (P : World -> Prop) :
  (forall w rq, P w -> P (handle w rq)) ->
  forall rqs w, P w -> P (run rqs w).
Proof.
  intros Hstep. induction rqs as [|rq rqs IH]; intros w Hw; [exact Hw|].
  rewrite run_cons. apply IH, Hstep, Hw.
Qed.

Lemma wf_handle w rq : wf w -> wf (handle w rq).
Proof. destruct rq; simpl; [apply wf_create|apply wf_delete]. Qed.

Lemma no_alias_init objs : no_alias (__init__ objs).
Proof.
  intros key1 key2 r. unfold __init__, _add_default_event_bus. simpl.
  intros H1 H2.
  apply lookup_insert_Some in H1 as [[<- _]|[_ H1]];
    [|rewrite lookup_empty in H1; discriminate].
  apply lookup_insert_Some in H2 as [[<- _]|[_ H2]];
    [|rewrite lookup_empty in H2; discriminate].
  reflexivity.
Qed.

(** A live reference is below the next free one. *)
Lemma wf_lt w key r :
  wf w -> _event_buses w !! key = Some r -> r < List.length (objects w).
Proof. intros Hwf Hkey. apply lookup_lt_is_Some. eapply Hwf, Hkey. Qed.

Lemma no_alias_create context name w :
  wf w -> no_alias w -> no_alias (fst (create_event_bus context name w)).
Proof.
  intros Hwf Hna key1 key2 r. rewrite create_buses. intros H1 H2.
  apply lookup_insert_Some in H1 as [[<- <-]|[Hne1 H1]];
    apply lookup_insert_Some in H2 as [[<- Hr]|[Hne2 H2]].
  - reflexivity.
  - apply (wf_lt w) in H2; [lia|exact Hwf].
  - subst r. apply (wf_lt w) in H1; [lia|exact Hwf].
  - eapply Hna; eassumption.
Qed.

Lemma no_alias_delete context name w :
  no_alias w -> no_alias (fst (delete_event_bus context name w)).
Proof.
  intros Hna.
  destruct (decide (name = "default")) as [Hd|Hd].
  - rewrite delete_default by exact Hd. exact Hna.
  - destruct (_event_buses w !! _get_event_bus_key name (region context))
      as [r|] eqn:Hkey.
    + rewrite (delete_present _ _ _ r) by assumption.
      intros key1 key2 r'. simpl. intros H1 H2.
      apply lookup_delete_Some in H1 as [_ H1].
      apply lookup_delete_Some in H2 as [_ H2].
      eapply Hna; eassumption.
    + rewrite delete_absent by assumption. exact Hna.
Qed.

Lemma reachable_wf objs rqs : wf (run rqs (__init__ objs)).
Proof.
  apply (run_invariant wf); [intros w rq; apply wf_handle|apply wf_init].
Qed.

Lemma reachable_no_alias objs rqs : no_alias (run rqs (__init__ objs)).
Proof.
  apply (run_invariant (fun w => wf w /\ no_alias w)).
  - intros w rq [Hwf Hna]. split; [apply wf_handle, Hwf|].
    destruct rq; simpl; [apply no_alias_create|apply no_alias_delete];
      assumption.
  - split; [apply wf_init|apply no_alias_init].
Qed.

(** X8. In every world reached from the constructor by a run of requests, every
    reference of the dictionary is to an allocated instance, and no two keys
    hold the same instance. *)
Theorem reachable_live_and_unshared :
  forall objs rqs,
    wf (run rqs (__init__ objs)) /\ no_alias (run rqs (__init__ objs)).
Proof.
  intros objs rqs. split; [apply reachable_wf|apply reachable_no_alias].
Qed.

Lemma no_alias_two_buses : no_alias world_with_two_buses.
Proof.
  intros key1 key2 r. unfold world_with_two_buses. simpl. intros H1 H2.
  apply lookup_insert_Some in H1 as [[<- <-]|[_ H1]];
    apply lookup_insert_Some in H2 as [[<- Hr]|[_ H2]];
    try reflexivity;
    repeat match goal with
           | H : {[ _ := _ ]} !! _ = Some _ |- _ =>
               apply lookup_singleton_Some in H as [<- ?]
           end;
    try reflexivity; try discriminate; congruence.
Qed.

(** ** When a deletion returns *)

(** X9. [delete_event_bus] returns exactly when the name is not "default" and
    the composite key is registered; whenever it raises, it leaves the world
    as it was. *)
Theorem delete_returns_iff_registered :
  forall context name w,
    (snd (delete_event_bus context name w) = Return tt
     <-> name <> "default"
         /\ is_Some (_event_buses w !! _get_event_bus_key name (region context)))
    /\ (forall e,
          snd (delete_event_bus context name w) = Raise e ->
          fst (delete_event_bus context name w) = w).
Proof.
  intros context name w.
  destruct (decide (name = "default")) as [Hd|Hd].
  - rewrite delete_default by exact Hd. simpl. split; [|reflexivity].
    split; [discriminate|]. intros [Hne _]. contradiction.
  - destruct (_event_buses w !! _get_event_bus_key name (region context))
      as [r|] eqn:Hkey.
    + rewrite (delete_present _ _ _ r) by assumption. simpl.
      split; [|discriminate]. split; [eauto|reflexivity].
    + rewrite delete_absent by assumption. simpl. split; [|reflexivity].
      split; [discriminate|]. intros [_ [r Hr]]. discriminate.
Qed.

(** X10. After a deletion that returned, the same deletion raises the [KeyError]
    of [dict.pop] and leaves the world as it is. *)
Theorem delete_twice :
  forall context name w,
    snd (delete_event_bus context name w) = Return tt ->
    delete_event_bus context name (fst (delete_event_bus context name w))
    = (fst (delete_event_bus context name w),
       Raise (KeyError (_get_event_bus_key name (region context)))).
Proof.
  intros context name w Hret.
  destruct (decide (name = "default")) as [Hd|Hd].
  - rewrite delete_default in Hret by exact Hd. discriminate.
  - destruct (_event_buses w !! _get_event_bus_key name (region context))
      as [r|] eqn:Hkey.
    + rewrite (delete_present context name w r) by assumption. simpl.
      apply delete_absent; [exact Hd|]. simpl. apply lookup_delete_eq.
    + rewrite delete_absent in Hret by assumption. discriminate.
Qed.

Lemma delete_twice_witness :
  let context := {| region := "us-east-1"; account_id := "000000000000" |} in
  delete_event_bus context "orders"
    (fst (delete_event_bus context "orders" world_with_rule))
  = (fst (delete_event_bus context "orders" world_with_rule),
     Raise (KeyError "orders-us-east-1")).
Proof.
  apply (delete_twice {| region := "us-east-1"; account_id := "000000000000" |}
           "orders" world_with_rule).
  reflexivity.
Defined.

(** ** What a deletion leaves alone *)

(** X11. In a world where no two keys hold the same instance, a deletion leaves
    the lookup of every other key with the outcome it had, and leaves the
    instance found there with the fields it had, rules included. *)
Theorem delete_other_key_frame :
  forall context name name' region' w,
    no_alias w ->
    _get_event_bus_key name' region' <> _get_event_bus_key name (region context) ->
    let w' := fst (delete_event_bus context name w) in
    _get_event_bus name' region' w' = _get_event_bus name' region' w
    /\ (forall r,
          _get_event_bus name' region' w = Return r ->
          objects w' !! r = objects w !! r).
Proof.
  intros context name name' region' w Hna Hne w'. subst w'.
  destruct (decide (name = "default")) as [Hd|Hd].
  - rewrite delete_default by exact Hd. split; [reflexivity|]. reflexivity.
  - destruct (_event_buses w !! _get_event_bus_key name (region context))
      as [r0|] eqn:Hkey.
    + rewrite (delete_present _ _ _ r0) by assumption. simpl. split.
      * unfold _get_event_bus. simpl.
        rewrite lookup_delete_ne by congruence. reflexivity.
      * intros r Hget. unfold _get_event_bus in Hget.
        destruct (_event_buses w !! _get_event_bus_key name' region')
          as [r'|] eqn:Hkey'; [|discriminate].
        injection Hget as ->.
        apply list_lookup_alter_ne. intros ->.
        apply Hne. eapply Hna; eassumption.
    + rewrite delete_absent by assumption. split; reflexivity.
Qed.

Lemma delete_other_key_frame_witness :
  let context := {| region := "us-east-1"; account_id := "000000000000" |} in
  let w' := fst (delete_event_bus context "orders" world_with_two_buses) in
  _get_event_bus "billing" "us-east-1" w'
  = _get_event_bus "billing" "us-east-1" world_with_two_buses
  /\ (forall r,
        _get_event_bus "billing" "us-east-1" world_with_two_buses = Return r ->
        objects w' !! r = objects world_with_two_buses !! r).
Proof.
  apply (delete_other_key_frame
           {| region := "us-east-1"; account_id := "000000000000" |}
           "orders" "billing" "us-east-1" world_with_two_buses).
  - apply no_alias_two_buses.
  - discriminate.
Defined.

(** X12. In a world where no two keys hold the same instance, after a deletion
    that found its bus no lookup, of any name and region, returns the instance
    that was registered. *)
Theorem deleted_bus_unreachable :
  forall context name w r,
    no_alias w ->
    name <> "default" ->
    _get_event_bus name (region context) w = Return r ->
    let w' := fst (delete_event_bus context name w) in
    snd (delete_event_bus context name w) = Return tt
    /\ (forall name' region', _get_event_bus name' region' w' <> Return r).
Proof.
  intros context name w r Hna Hname Hget w'. subst w'.
  assert (_event_buses w !! _get_event_bus_key name (region context) = Some r)
    as Hkey.
  { unfold _get_event_bus in Hget.
    destruct (_event_buses w !! _) as [r'|]; [congruence|discriminate]. }
  rewrite (delete_present _ _ _ r) by assumption. simpl.
  split; [reflexivity|].
  intros name' region'. unfold _get_event_bus. simpl.
  destruct (delete _ _ !! _get_event_bus_key name' region') as [r'|] eqn:Hkey';
    [|discriminate].
  intros [= ->]. apply lookup_delete_Some in Hkey' as [Hne Hkey'].
  apply Hne. eapply Hna; eassumption.
Qed.

Lemma deleted_bus_unreachable_witness :
  let context := {| region := "us-east-1"; account_id := "000000000000" |} in
  let w' := fst (delete_event_bus context "orders" world_with_two_buses) in
  snd (delete_event_bus context "orders" world_with_two_buses) = Return tt
  /\ (forall name' region', _get_event_bus name' region' w' <> Return 0).
Proof.
  apply (deleted_bus_unreachable
           {| region := "us-east-1"; account_id := "000000000000" |}
           "orders" world_with_two_buses 0).
  - apply no_alias_two_buses.
  - discriminate.
  - reflexivity.
Defined.

(** ** The seeded default bus *)

Lemma seeded_init objs : seeded_at (List.length objs) (__init__ objs).
Proof.
  unfold seeded_at, __init__, _add_default_event_bus. simpl.
  split; [apply lookup_insert_eq|]. split.
  - rewrite lookup_app_r by lia. rewrite Nat.sub_diag. reflexivity.
  - intros key r Hkey Hne. rewrite lookup_insert_ne in Hkey by congruence.
    rewrite lookup_empty in Hkey. discriminate.
Qed.

Lemma seeded_handle d w rq : seeded_at d w -> seeded_at d (handle w rq).
Proof.
  intros (Hd & Hobj & Hlater).
  destruct rq as [context name|context name]; cbn [handle].
  - split; [|split].
    + rewrite create_lookup_other; [exact Hd|].
      intros Heq. symmetry in Heq. eapply key_not_default, Heq.
    + apply create_old_objects, Hobj.
    + intros key r. rewrite create_buses. intros Hkey Hne.
      apply lookup_insert_Some in Hkey as [[_ <-]|[_ Hkey]].
      * eapply lookup_lt_Some, Hobj.
      * eapply Hlater; eassumption.
  - destruct (decide (name = "default")) as [Hname|Hname].
    { rewrite delete_default by exact Hname. repeat split; assumption. }
    destruct (_event_buses w !! _get_event_bus_key name (region context))
      as [r0|] eqn:Hkey0.
    2:{ rewrite delete_absent by assumption. repeat split; assumption. }
    rewrite (delete_present context name w r0) by assumption.
    assert (d < r0) as Hlt by (eapply Hlater; [exact Hkey0|apply key_not_default]).
    split; [|split]; simpl.
    + rewrite lookup_delete_ne; [exact Hd|apply key_not_default].
    + rewrite list_lookup_alter_ne by lia. exact Hobj.
    + intros key r Hkey Hne. apply lookup_delete_Some in Hkey as [_ Hkey].
      eapply Hlater; eassumption.
Qed.

(** X13. Whatever requests follow the constructor, the seeded default bus stays
    under the bare key "default" with its name, its ARN and no rules, and no
    lookup, of any name and region, returns it. *)
Theorem seeded_default_permanent_and_hidden :
  forall objs rqs,
    let w := run rqs (__init__ objs) in
    _event_buses w !! "default" = Some (List.length objs)
    /\ objects w !! List.length objs
       = Some (EventBus.__init__ "default"
                 "arn:aws:events:us-east-1:000000000000:event-bus/default")
    /\ (forall name region,
          _get_event_bus name region w <> Return (List.length objs)).
Proof.
  intros objs rqs w.
  assert (seeded_at (List.length objs) w) as (Hd & Hobj & Hlater).
  { apply (run_invariant (seeded_at (List.length objs))).
    - intros w0 rq. apply seeded_handle.
    - apply seeded_init. }
  split; [exact Hd|]. split; [exact Hobj|].
  intros name region. unfold _get_event_bus.
  destruct (_event_buses w !! _get_event_bus_key name region) as [r|] eqn:Hkey;
    [|discriminate].
  intros [= ->].
  pose proof (Hlater _ _ Hkey (key_not_default name region)). lia.
Qed.

(** ** What the dictionary holds *)

Lemma built_for_delete key bus : built_for key bus -> EventBus.delete bus = bus.
Proof.
  intros [[_ ->]|(context & _ & Hbus)]; [reflexivity|].
  destruct bus as [n a rules]. simpl in Hbus.
  injection Hbus as _ ->. reflexivity.
Qed.


Lemma all_built_init objs : all_built (__init__ objs).
Proof.
  intros key r. unfold __init__, _add_default_event_bus. simpl. intros Hkey.
  apply lookup_insert_Some in Hkey as [[<- <-]|[_ Hkey]].
  - eexists. split.
    + rewrite lookup_app_r by lia. rewrite Nat.sub_diag. reflexivity.
    + left. split; reflexivity.
  - rewrite lookup_empty in Hkey. discriminate.
Qed.

Lemma all_built_handle w rq : all_built w -> all_built (handle w rq).
Proof.
  intros Hall. destruct rq as [context name|context name]; cbn [handle].
  - intros key r. rewrite create_buses. intros Hkey.
    apply lookup_insert_Some in Hkey as [[<- <-]|[_ Hkey]].
    + eexists. split; [apply create_new_object|].
      right. exists context. split; reflexivity.
    + destruct (Hall key r Hkey) as (bus & Hobj & Hbuilt).
      exists bus. split; [apply create_old_objects, Hobj|exact Hbuilt].
  - destruct (decide (name = "default")) as [Hname|Hname].
    { rewrite delete_default by exact Hname. exact Hall. }
    destruct (_event_buses w !! _get_event_bus_key name (region context))
      as [r0|] eqn:Hkey0.
    2:{ rewrite delete_absent by assumption. exact Hall. }
    rewrite (delete_present context name w r0) by assumption.
    intros key r. simpl. intros Hkey.
    apply lookup_delete_Some in Hkey as [_ Hkey].
    destruct (Hall key r Hkey) as (bus & Hobj & Hbuilt).
    exists bus. split; [|exact Hbuilt].
    rewrite list_lookup_alter. destruct (decide (r0 = r)) as [->|_].
    + rewrite Hobj. simpl. rewrite (built_for_delete key bus Hbuilt). reflexivity.
    + exact Hobj.
Qed.

(** X14. In every world reached from the constructor, a registered key leads to
    an allocated instance without rules, and key and instance agree: under
    "default" the seeded bus, and under any other key a bus whose name and
    region compose the key and whose ARN is composed of that name, that region
    and some account id. *)
Theorem registered_bus_matches_key :
  forall objs rqs key r,
    _event_buses (run rqs (__init__ objs)) !! key = Some r ->
    exists bus,
      objects (run rqs (__init__ objs)) !! r = Some bus
      /\ EventBus._rules bus = ∅
      /\ built_for key bus.
Proof.
  intros objs rqs key r Hkey.
  assert (all_built (run rqs (__init__ objs))) as Hall.
  { apply (run_invariant all_built).
    - intros w rq. apply all_built_handle.
    - apply all_built_init. }
  destruct (Hall key r Hkey) as (bus & Hobj & Hbuilt).
  exists bus. split; [exact Hobj|]. split; [|exact Hbuilt].
  rewrite <- (built_for_delete key bus Hbuilt). reflexivity.
Qed.

Lemma registered_bus_matches_key_witness :
  exists bus,
    objects
      (run [ CreateEventBus {| region := "us-east-1"; account_id := "1" |} "orders";
             CreateEventBus {| region := "eu-west-1"; account_id := "2" |} "billing";
             DeleteEventBus {| region := "us-east-1"; account_id := "1" |} "orders" ]
         (__init__ [])) !! 2 = Some bus
    /\ EventBus._rules bus = ∅
    /\ built_for "billing-eu-west-1" bus.
Proof.
  apply (registered_bus_matches_key []
           [ CreateEventBus {| region := "us-east-1"; account_id := "1" |} "orders";
             CreateEventBus {| region := "eu-west-1"; account_id := "2" |} "billing";
             DeleteEventBus {| region := "us-east-1"; account_id := "1" |} "orders" ]
           "billing-eu-west-1" 2).
  reflexivity.
Defined.

(** ** Creating over a registered bus *)

(** X15. A second [CreateEventBus] of the same name in the same region, from any
    account, replaces the registered bus: the lookup returns the second
    instance, with the ARN of the second account; the first instance stays
    allocated, and no lookup returns it any more. *)
Theorem create_replaces_registered_bus :
  forall context1 context2 name w,
    wf w ->
    region context1 = region context2 ->
    let w2 := fst (create_event_bus context2 name
                     (fst (create_event_bus context1 name w))) in
    let first := List.length (objects w) in
    _get_event_bus name (region context1) w2 = Return (S first)
    /\ objects w2 !! S first
       = Some (EventBus.__init__ name
                 (_get_event_bus_arn name (region context2) (account_id context2)))
    /\ objects w2 !! first
       = Some (EventBus.__init__ name
                 (_get_event_bus_arn name (region context1) (account_id context1)))
    /\ (forall name' region', _get_event_bus name' region' w2 <> Return first).
Proof.
  intros context1 context2 name w Hwf Hregion w2 first.
  assert (List.length (objects (fst (create_event_bus context1 name w)))
          = S first) as Hlen.
  { rewrite create_objects, length_app. simpl. subst first. lia. }
  split; [|split; [|split]].
  - unfold _get_event_bus. subst w2. rewrite Hregion, create_lookup_same, Hlen.
    reflexivity.
  - subst w2. rewrite <- Hlen. apply create_new_object.
  - subst w2. apply create_old_objects, create_new_object.
  - intros name' region'. unfold _get_event_bus. subst w2.
    rewrite create_buses, Hlen, create_buses, <- Hregion, insert_insert_eq.
    destruct (_ !! _get_event_bus_key name' region') as [r|] eqn:Hkey;
      [|discriminate].
    intros [= ->].
    apply lookup_insert_Some in Hkey as [[_ Hr]|[_ Hkey]]; [lia|].
    apply (wf_lt w) in Hkey; [subst first; lia|exact Hwf].
Qed.

Lemma create_replaces_registered_bus_witness :
  let context1 := {| region := "us-east-1"; account_id := "111111111111" |} in
  let context2 := {| region := "us-east-1"; account_id := "222222222222" |} in
  let w2 := fst (create_event_bus context2 "orders"
                   (fst (create_event_bus context1 "orders" (__init__ [])))) in
  _get_event_bus "orders" "us-east-1" w2 = Return 2
  /\ objects w2 !! 2
     = Some (EventBus.__init__ "orders"
               (_get_event_bus_arn "orders" "us-east-1" "222222222222"))
  /\ objects w2 !! 1
     = Some (EventBus.__init__ "orders"
               (_get_event_bus_arn "orders" "us-east-1" "111111111111"))
  /\ (forall name' region', _get_event_bus name' region' w2 <> Return 1).
Proof.
  apply (create_replaces_registered_bus
           {| region := "us-east-1"; account_id := "111111111111" |}
           {| region := "us-east-1"; account_id := "222222222222" |}
           "orders" (__init__ [])).
  - apply wf_init.
  - reflexivity.
Defined.

(** ** Creating and then deleting *)

(** X16. For a name other than "default", [DeleteEventBus] right after
    [CreateEventBus] of the same name and region returns and leaves the
    dictionary as it was before the creation, less the key; when the key was
    not registered before, the dictionary is back to what it was. The instance
    that was created stays allocated. *)
Theorem create_then_delete :
  forall context name w,
    name <> "default" ->
    let w1 := fst (create_event_bus context name w) in
    let key := _get_event_bus_key name (region context) in
    snd (delete_event_bus context name w1) = Return tt
    /\ _event_buses (fst (delete_event_bus context name w1))
       = delete key (_event_buses w)
    /\ (_event_buses w !! key = None ->
        _event_buses (fst (delete_event_bus context name w1)) = _event_buses w)
    /\ objects (fst (delete_event_bus context name w1))
       = (objects w
          ++ [EventBus.__init__ name
                (_get_event_bus_arn name (region context) (account_id context))])%list.
Proof.
  intros context name w Hname w1 key.
  rewrite (delete_present context name w1 (List.length (objects w)) Hname)
    by (subst w1; apply create_lookup_same).
  simpl.
  assert (delete key (_event_buses w1) = delete key (_event_buses w)) as Hdel.
  { subst w1 key. rewrite create_buses. apply delete_insert_eq. }
  split; [reflexivity|]. split; [exact Hdel|]. split.
  - intros Habsent. etransitivity; [exact Hdel|]. apply delete_id, Habsent.
  - rewrite <- (Nat.add_0_r (List.length (objects w))), alter_app_r.
    reflexivity.
Qed.

Lemma create_then_delete_witness :
  let context := {| region := "us-east-1"; account_id := "000000000000" |} in
  let w1 := fst (create_event_bus context "orders" (__init__ [])) in
  snd (delete_event_bus context "orders" w1) = Return tt
  /\ _event_buses (fst (delete_event_bus context "orders" w1))
     = delete "orders-us-east-1" (_event_buses (__init__ []))
  /\ (_event_buses (__init__ []) !! "orders-us-east-1" = None ->
      _event_buses (fst (delete_event_bus context "orders" w1))
      = _event_buses (__init__ []))
  /\ objects (fst (delete_event_bus context "orders" w1))
     = (objects (__init__ [])
        ++ [EventBus.__init__ "orders"
              (_get_event_bus_arn "orders" "us-east-1" "000000000000")])%list.
Proof.
  apply (create_then_delete
           {| region := "us-east-1"; account_id := "000000000000" |}
           "orders" (__init__ [])).
  discriminate.
Defined.

(** ** What a creation leaves alone *)

(** X17. [CreateEventBus] leaves the lookup of every name and region that compose
    another key with the outcome it had, and it leaves every allocated
    instance with the fields it had. *)
Theorem create_other_key_frame :
  forall context name name' region' w,
    _get_event_bus_key name' region' <> _get_event_bus_key name (region context) ->
    let w' := fst (create_event_bus context name w) in
    _get_event_bus name' region' w' = _get_event_bus name' region' w
    /\ (forall r bus, objects w !! r = Some bus -> objects w' !! r = Some bus).
Proof.
  intros context name name' region' w Hne w'. subst w'. split.
  - unfold _get_event_bus. rewrite create_lookup_other by exact Hne.
    reflexivity.
  - intros r bus. apply create_old_objects.
Qed.

Lemma create_other_key_frame_witness :
  let context := {| region := "us-east-1"; account_id := "000000000000" |} in
  let w' := fst (create_event_bus context "audit" world_with_two_buses) in
  _get_event_bus "billing" "us-east-1" w'
  = _get_event_bus "billing" "us-east-1" world_with_two_buses
  /\ (forall r bus,
        objects world_with_two_buses !! r = Some bus ->
        objects w' !! r = Some bus).
Proof.
  apply (create_other_key_frame
           {| region := "us-east-1"; account_id := "000000000000" |}
           "audit" "billing" "us-east-1" world_with_two_buses).
  discriminate.
Defined.

(** ** Instances along a run *)

Lemma handle_keeps_instances w rq r bus :
  objects w !! r = Some bus ->
  exists bus',
    objects (handle w rq) !! r = Some bus'
    /\ EventBus.name bus' = EventBus.name bus
    /\ EventBus.arn bus' = EventBus.arn bus.
Proof.
  intros Hobj. destruct rq as [context name|context name]; cbn [handle].
  - exists bus. split; [apply create_old_objects, Hobj|]. split; reflexivity.
  - destruct (decide (name = "default")) as [Hname|Hname].
    { rewrite delete_default by exact Hname. eauto. }
    destruct (_event_buses w !! _get_event_bus_key name (region context))
      as [r0|] eqn:Hkey0.
    2:{ rewrite delete_absent by assumption. eauto. }
    rewrite (delete_present context name w r0) by assumption. simpl.
    rewrite list_lookup_alter. destruct (decide (r0 = r)) as [->|_].
    + rewrite Hobj. simpl. eexists. split; [reflexivity|]. split; reflexivity.
    + eauto.
Qed.

(** X18. No request deallocates or renames an instance: along every run an
    allocated instance stays at its reference with its name and its ARN. *)
Theorem instances_keep_name_and_arn :
  forall rqs w r bus,
    objects w !! r = Some bus ->
    exists bus',
      objects (run rqs w) !! r = Some bus'
      /\ EventBus.name bus' = EventBus.name bus
      /\ EventBus.arn bus' = EventBus.arn bus.
Proof.
  induction rqs as [|rq rqs IH]; intros w r bus Hobj.
  - exists bus. split; [exact Hobj|]. split; reflexivity.
  - rewrite run_cons.
    destruct (handle_keeps_instances w rq r bus Hobj) as (bus1 & Hobj1 & Hn1 & Ha1).
    destruct (IH (handle w rq) r bus1 Hobj1) as (bus' & Hobj' & Hn' & Ha').
    exists bus'. split; [exact Hobj'|]. split; congruence.
Qed.

Lemma instances_keep_name_and_arn_witness :
  exists bus',
    objects
      (run [ DeleteEventBus {| region := "us-east-1"; account_id := "1" |} "orders";
             CreateEventBus {| region := "us-east-1"; account_id := "2" |} "orders" ]
         world_with_two_buses) !! 0 = Some bus'
    /\ EventBus.name bus' = "orders"
    /\ EventBus.arn bus' = "arn:aws:events:us-east-1:000000000000:event-bus/orders".
Proof.
  refine (instances_keep_name_and_arn
            [ DeleteEventBus {| region := "us-east-1"; account_id := "1" |} "orders";
              CreateEventBus {| region := "us-east-1"; account_id := "2" |} "orders" ]
            world_with_two_buses 0
            {| EventBus.name := "orders";
               EventBus.arn := "arn:aws:events:us-east-1:000000000000:event-bus/orders";
               EventBus._rules :=
                 {[ "nightly" := Rule.__init__ "nightly" None None None ]} |}
            _).
  reflexivity.
Defined.
